(** * The WAL dump command of the tool package ([wal dump <wal-files>])

    A shallow embedding of [runDump] (tool/wal.go) and of the pieces of the
  engine it drives, with the properties of its output.

    Conventions.
  - Go's [[]byte] is [list byte]; a Go [string] is [string].
  - Fixed-width integers are [Z] with the wrap-around written out.
  - [stdout] and [stderr] are recorded as the list of the [fmt.Fprintf]
    calls made, in order: one element per call, tagged with its stream.
  - The collaborators that live in other packages (the file system, the
    file-name parser, the framed record reader, the range-key decoder and
    the text of error values) are the fields of [tool.Engine]. *)

From Stdlib Require Import ZArith List String Ascii Bool Lia DecimalString.
From Stdlib Require Import Strings.Byte.
Import ListNotations.

Local Open Scope string_scope.
Local Open Scope list_scope.
Local Open Scope Z_scope.

Definition bytes := list byte.

Definition byteZ (b : byte) : Z := Z.of_N (Byte.to_N b).

Definition wrap64 (x : Z) : Z := x mod 2 ^ 64.

(** ** encoding/binary (Go standard library) *)

Module binary.

Definition MaxVarintLen64 : Z := 10.

(** The body of the [for i, b := range buf] loop of [binary.Uvarint];
    [x] and [s] are its accumulators and [i] the index of the head of
    [buf]. The result is Go's pair (value, bytes read): a count that is
    not positive signals a failure, and the value is then 0. *)
Fixpoint uvarintLoop (buf : bytes) (x s i : Z) : Z * Z :=
  match buf with
  | [] => (0, 0)
  | b :: rest =>
      if i =? MaxVarintLen64 then (0, - (i + 1))
      else if byteZ b <? 128 then
        if (i =? MaxVarintLen64 - 1) && (1 <? byteZ b) then (0, - (i + 1))
        else (Z.lor x (wrap64 (Z.shiftl (byteZ b) s)), i + 1)
      else
        uvarintLoop rest
          (Z.lor x (wrap64 (Z.shiftl (Z.land (byteZ b) 127) s)))
          (s + 7) (i + 1)
  end.

Definition Uvarint (buf : bytes) : Z * Z := uvarintLoop buf 0 0 0.

Definition byteOfZ (x : Z) : byte :=
  match Byte.of_N (Z.to_N (x mod 256)) with
  | Some b => b
  | None => x00
  end.

(** [binary.PutUvarint]: [for x >= 0x80 { emit byte(x)|0x80; x >>= 7 }]
    then [byte(x)]. The loop runs at most nine times on a 64-bit value;
    [n] bounds the iterations. *)
Fixpoint putUvarintLoop (n : nat) (x : Z) : bytes :=
  match n with
  | O => [byteOfZ x]
  | S n' =>
      if 128 <=? x
      then byteOfZ (Z.lor (x mod 256) 128) :: putUvarintLoop n' (Z.shiftr x 7)
      else [byteOfZ x]
  end.

Definition PutUvarint (x : Z) : bytes := putUvarintLoop 9 x.

(** [binary.LittleEndian.Uint32/Uint64] on the first bytes of a slice
    that is long enough, and the matching [PutUint32/PutUint64]. *)
Fixpoint leUint (n : nat) (buf : bytes) : Z :=
  match n, buf with
  | S n', b :: rest => Z.lor (byteZ b) (Z.shiftl (leUint n' rest) 8)
  | _, _ => 0
  end.

Fixpoint lePut (n : nat) (x : Z) : bytes :=
  match n with
  | O => []
  | S n' => byteOfZ x :: lePut n' (Z.shiftr x 8)
  end.

Definition Uint32 := leUint 4.
Definition Uint64 := leUint 8.
Definition PutUint32 := lePut 4.
Definition PutUint64 := lePut 8.

End binary.

(** ** Text produced by the [fmt] verbs the command uses *)

Infix "+++" := String.append (at level 60, right associativity).

Definition nl : string := String (ascii_of_nat 10) EmptyString.
Definition dq : string := String (ascii_of_nat 34) EmptyString.
Definition backslash : string := String (ascii_of_nat 92) EmptyString.

Module fmt.

(** [%d] of an integer. *)
Definition d (z : Z) : string :=
  if z <? 0
  then "-" +++ NilZero.string_of_uint (N.to_uint (Z.to_N (- z)))
  else NilZero.string_of_uint (N.to_uint (Z.to_N z)).

Definition hexDigit (n : Z) : string :=
  String (nth (Z.to_nat n)
            ["0"; "1"; "2"; "3"; "4"; "5"; "6"; "7";
             "8"; "9"; "a"; "b"; "c"; "d"; "e"; "f"]%char "0"%char)
         EmptyString.

(** One byte under [%q] ([strconv.Quote]): the quote and the backslash
    are escaped, printable ASCII is copied, the usual control characters
    have their letter escapes and the rest is written [\xNN]. A byte
    above 0x7f is written [\xNN] as well, which is what Go does for a byte
    that is not part of a valid UTF-8 sequence; the printable runes beyond
    ASCII, which Go copies, are not modelled. *)
Definition quoteByte (c : Z) : string :=
  if c =? 34 then backslash +++ dq
  else if c =? 92 then backslash +++ backslash
  else if (32 <=? c) && (c <=? 126) then
    String (ascii_of_N (Z.to_N c)) EmptyString
  else if c =? 7 then backslash +++ "a"
  else if c =? 8 then backslash +++ "b"
  else if c =? 12 then backslash +++ "f"
  else if c =? 10 then backslash +++ "n"
  else if c =? 13 then backslash +++ "r"
  else if c =? 9 then backslash +++ "t"
  else if c =? 11 then backslash +++ "v"
  else backslash +++ "x" +++ hexDigit (c / 16) +++ hexDigit (c mod 16).

Fixpoint quoteBody (cs : list Z) : string :=
  match cs with
  | [] => EmptyString
  | c :: rest => quoteByte c +++ quoteBody rest
  end.

(** [%q] of a byte slice and of a string. *)
Definition q (b : bytes) : string := dq +++ quoteBody (map byteZ b) +++ dq.

Definition qs (s : string) : string :=
  dq +++ quoteBody (map (fun a => Z.of_N (N_of_ascii a)) (list_ascii_of_string s)) +++ dq.

End fmt.

(** ** Errors

    A Go [error] value. The two sentinels of the record package are compared
    by identity in [runDump]; [EOF] is [io.EOF]; [ErrInvalidBatch] is the
    engine's corruption error for a payload that breaks the batch encoding,
    with the kind of the violation; any other error is [ErrOther]. *)
Inductive violation : Type :=
| ShortHeader
| UnknownKind
| TruncatedKey
| TruncatedValue.

Inductive error : Type :=
| ErrZeroedChunk
| ErrInvalidChunk
| EOF
| ErrInvalidBatch (why : violation)
| ErrOther (msg : string).

(** ** internal/base *)

Module base.

(** The closed enumeration of mutation kinds. *)
Inductive InternalKeyKind : Type :=
  | InternalKeyKindDelete
  | InternalKeyKindSet
  | InternalKeyKindMerge
  | InternalKeyKindLogData
  | InternalKeyKindSingleDelete
  | InternalKeyKindRangeDelete
  | InternalKeyKindSetWithDelete
  | InternalKeyKindRangeKeyDelete
  | InternalKeyKindRangeKeyUnset
  | InternalKeyKindRangeKeySet
  | InternalKeyKindIngestSST
  | InternalKeyKindDeleteSized.

(** Modelled from the spec: [InternalKeyKind.String] is not in the
    sources at hand; the spec renders an entry as [kind(rendered-payload)]
    with the names of its MutationKind enumeration ([Set], [RangeDelete],
    [IngestSST], ...). *)
Definition kindString (k : InternalKeyKind) : string :=
  match k with
  | InternalKeyKindDelete => "Delete"
  | InternalKeyKindSet => "Set"
  | InternalKeyKindMerge => "Merge"
  | InternalKeyKindLogData => "LogData"
  | InternalKeyKindSingleDelete => "SingleDelete"
  | InternalKeyKindRangeDelete => "RangeDelete"
  | InternalKeyKindSetWithDelete => "SetWithDelete"
  | InternalKeyKindRangeKeyDelete => "RangeKeyDelete"
  | InternalKeyKindRangeKeyUnset => "RangeKeyUnset"
  | InternalKeyKindRangeKeySet => "RangeKeySet"
  | InternalKeyKindIngestSST => "IngestSST"
  | InternalKeyKindDeleteSized => "DeleteSized"
  end.

(** Modelled from the spec: the numeric tag of a kind in the batch
    encoding is not in the sources at hand and the spec only says that an
    entry starts with a kind tag; the tags below are the engine's. *)
Definition kindTag (k : InternalKeyKind) : Z :=
  match k with
  | InternalKeyKindDelete => 0
  | InternalKeyKindSet => 1
  | InternalKeyKindMerge => 2
  | InternalKeyKindLogData => 3
  | InternalKeyKindSingleDelete => 7
  | InternalKeyKindRangeDelete => 15
  | InternalKeyKindSetWithDelete => 18
  | InternalKeyKindRangeKeyDelete => 19
  | InternalKeyKindRangeKeyUnset => 20
  | InternalKeyKindRangeKeySet => 21
  | InternalKeyKindIngestSST => 22
  | InternalKeyKindDeleteSized => 23
  end.

Definition allKinds : list InternalKeyKind :=
  [InternalKeyKindDelete; InternalKeyKindSet; InternalKeyKindMerge;
   InternalKeyKindLogData; InternalKeyKindSingleDelete;
   InternalKeyKindRangeDelete; InternalKeyKindSetWithDelete;
   InternalKeyKindRangeKeyDelete; InternalKeyKindRangeKeyUnset;
   InternalKeyKindRangeKeySet; InternalKeyKindIngestSST;
   InternalKeyKindDeleteSized].

Definition kindOfTag (t : Z) : option InternalKeyKind :=
  find (fun k => kindTag k =? t) allKinds.

(** Modelled from the spec: [FileNum.String] is not in the sources at
    hand; the spec prints the decoded file number as the unsigned integer
    itself ([IngestSST(42)]). *)
Definition FileNum_String (fn : Z) : string := fmt.d fn.

(** Modelled from the spec: [InternalKey] and [MakeInternalKey] are not in
    the sources at hand; the spec hands the range-key decoder the key, the
    sequence number derived from the batch header and the entry index, and
    the kind. *)
Record InternalKey : Type := MakeInternalKey
  { UserKey : bytes; SeqNum : Z; Kind : InternalKeyKind }.

End base.
Export base.

(** ** The batch representation (package pebble)

    None of [Batch.SetRepr], [Batch.SeqNum], [Batch.Count], [Batch.Reader]
  and [BatchReader.Next] is in the sources at hand: they are modelled
  from section 4.3 of the spec. *)

Module pebble.

(** Modelled from the spec: the fixed-size header of a batch payload,
    holding the 64-bit sequence number and then the entry count; the
    widths and the byte order (8 and 4 bytes, little endian) are the
    engine's. *)
Definition batchHeaderLen : Z := 12.

Record Batch : Type := { data : bytes; count : Z }.

(** Modelled from the spec: [SetRepr] fails on a payload too short to
    hold the header and otherwise reads the count from its fixed
    position. *)
Definition SetRepr (buf : bytes) : Batch + error :=
  if Z.of_nat (List.length buf) <? batchHeaderLen
  then inr (ErrInvalidBatch ShortHeader)
  else inl {| data := buf; count := binary.Uint32 (skipn 8 buf) |}.

(** Modelled from the spec: the header accessors and the payload. *)
Definition Repr (b : Batch) : bytes := data b.
Definition SeqNum (b : Batch) : Z := binary.Uint64 (data b).
Definition Count (b : Batch) : Z := count b.

(** The entry cursor: the bytes not yet decoded. *)
Definition BatchReader := bytes.

Definition Reader (b : Batch) : BatchReader :=
  skipn (Z.to_nat batchHeaderLen) (data b).

(** Modelled from the spec: a length-prefixed field is a varint length
    followed by that many bytes; a truncated length prefix and a length
    exceeding the remaining bytes are structural violations. The result is
    the field and the bytes after it. *)
Definition batchDecodeStr (r : bytes) : option (bytes * bytes) :=
  let '(v, n) := binary.Uvarint r in
  if n <=? 0 then None
  else
    let rest := skipn (Z.to_nat n) r in
    if Z.of_nat (List.length rest) <? v then None
    else Some (firstn (Z.to_nat v) rest, skipn (Z.to_nat v) rest).

(** Modelled from the spec: the kinds whose entry carries a second
    length-prefixed field after the key (a value, a range deletion's end
    key, a range-key payload, a deletion's size). *)
Definition hasValue (k : InternalKeyKind) : bool :=
  match k with
  | InternalKeyKindSet | InternalKeyKindMerge | InternalKeyKindRangeDelete
  | InternalKeyKindRangeKeySet | InternalKeyKindRangeKeyUnset
  | InternalKeyKindRangeKeyDelete | InternalKeyKindDeleteSized => true
  | _ => false
  end.

(** What [BatchReader.Next] returns: an entry and the advanced cursor
    ([ok] true), the end of the entries ([ok] false and a nil error), or a
    structural violation ([ok] false and an error). *)
Inductive NextResult : Type :=
  | NextEntry (kind : InternalKeyKind) (ukey value : bytes) (r' : BatchReader)
  | NextEnd
  | NextErr (err : error).

(** Modelled from the spec: one entry is a kind tag, a length-prefixed
    key and, for the kinds of [hasValue], a length-prefixed value. The
    cursor signals the end of the entries when its bytes are used up; on a
    payload that holds as many entries as its header declares this is also
    the point where that many entries have been produced. *)
Definition Next (r : BatchReader) : NextResult :=
  match r with
  | [] => NextEnd
  | t :: r1 =>
      match kindOfTag (byteZ t) with
      | None => NextErr (ErrInvalidBatch UnknownKind)
      | Some kind =>
          match batchDecodeStr r1 with
          | None => NextErr (ErrInvalidBatch TruncatedKey)
          | Some (ukey, r2) =>
              if hasValue kind then
                match batchDecodeStr r2 with
                | None => NextErr (ErrInvalidBatch TruncatedValue)
                | Some (value, r3) => NextEntry kind ukey value r3
                end
              else NextEntry kind ukey [] r2
          end
      end
  end.

(** *** The encoding side, used to build well-formed payloads *)

Record Entry : Type := mkEntry
  { ekind : InternalKeyKind; ekey : bytes; evalue : bytes }.

Definition encodeStr (s : bytes) : bytes :=
  binary.PutUvarint (Z.of_nat (List.length s)) ++ s.

Definition encodeEntry (e : Entry) : bytes :=
  binary.byteOfZ (kindTag (ekind e)) :: encodeStr (ekey e)
    ++ (if hasValue (ekind e) then encodeStr (evalue e) else []).

Definition encodeBatch (seq : Z) (es : list Entry) : bytes :=
  binary.PutUint64 seq ++ binary.PutUint32 (Z.of_nat (List.length es))
    ++ List.concat (map encodeEntry es).

(** The entries a cursor holds, decoded one [Next] at a time, and how the
    decoding ended: [None] at the end of the entries, [Some err] at a
    structural violation. [n] bounds the number of calls of [Next]. *)
Fixpoint decodeEntries (n : nat) (r : BatchReader) : list Entry * option error :=
  match n with
  | O => ([], None)
  | S n' =>
      match Next r with
      | NextEnd => ([], None)
      | NextErr err => ([], Some err)
      | NextEntry kind ukey value r' =>
          let '(es, res) := decodeEntries n' r' in
          (mkEntry kind ukey value :: es, res)
      end
  end.

Definition entriesOf (r : BatchReader) : list Entry * option error :=
  decodeEntries (S (List.length r)) r.

(** An entry the encoding can hold: field lengths fit the 64-bit length
      prefix, and a kind without a value field has none. *)
Definition wfEntry (e : Entry) : bool :=
  (Z.of_nat (List.length (ekey e)) <? 2 ^ 64)
  && (Z.of_nat (List.length (evalue e)) <? 2 ^ 64)
  && (hasValue (ekind e) || match evalue e with [] => true | _ => false end).

(** A batch the encoding can hold: a 64-bit sequence number, a 32-bit
      count and entries that fit. *)
Definition wfBatch (seq : Z) (es : list Entry) : bool :=
  (0 <=? seq) && (seq <? 2 ^ 64)
  && (Z.of_nat (List.length es) <? 2 ^ 32)
  && forallb wfEntry es.

(** A payload is well formed when [SetRepr] accepts it, its cursor decodes
      to the end without a violation and the count of its header is the
      number of its entries. The result is the batch and its entries. *)
Definition wellFormed (buf : bytes) : option (Batch * list Entry) :=
  match SetRepr buf with
  | inr _ => None
  | inl b =>
      match entriesOf (Reader b) with
      | (es, None) =>
          if Count b =? Z.of_nat (List.length es) then Some (b, es) else None
      | (_, Some _) => None
      end
  end.

End pebble.

(** ** The framed record source (package record)

    The chunk reader is an external collaborator. What [runDump] observes of
  a reader is the sequence of its steps: the offset [rr.Offset()] reports
  and then what [rr.Next()], followed by the copy of the record into the
  buffer, returns, a payload or an error. A reader is modelled as the list
  of the steps it has left; once the list is used up [Next] returns
  [io.EOF]. *)

Module record.

Definition Step : Type := Z * (bytes + error).
Definition Reader : Type := list Step.

(** The error the next call of [Next] ends on, when it fails: the error of
      the step at hand, or [io.EOF] when no step is left. *)
Definition nextFailure (rr : Reader) : option error :=
  match rr with
  | [] => Some EOF
  | (_, inr err) :: _ => Some err
  | (_, inl _) :: _ => None
  end.

End record.

(** ** The command (package tool) *)

Module tool.

Inductive stream : Type := Stdout | Stderr.

(** One [fmt.Fprintf] call: the stream and the text written. *)
Definition output : Type := list (stream * string).

(** The [fn] of a [keyFormatter] and of a [valueFormatter]. *)
Definition keyFormatter : Type := bytes -> string.
Definition valueFormatter : Type := bytes -> bytes -> string.

(** Modelled from the spec: the formatters are not in the sources at
    hand; [quoted] renders a key as quoted text and [size] renders a value
    as its length ([Set("k",3)] in the spec's words). *)
Definition formatKeyQuoted : keyFormatter := fmt.q.
Definition formatValueSize : valueFormatter :=
  fun _ value => fmt.d (Z.of_nat (List.length value)).

Record walT : Type :=
  { fmtKey : keyFormatter; fmtValue : valueFormatter; verbose : bool }.

(** [newWAL]: [w.fmtKey.mustSet("quoted")], [w.fmtValue.mustSet("size")];
    the flag [verbose] defaults to false. *)
Definition newWAL : walT :=
  {| fmtKey := formatKeyQuoted; fmtValue := formatValueSize; verbose := false |}.

(** What [runDump] calls in other packages. *)
Record Engine : Type :=
  { File : Type;
    Span : Type;
    (** [w.opts.FS.Open] *)
    FS_Open : string -> File + error;
    (** [base.ParseFilename(w.opts.FS, arg)]: the file number when [ok] *)
    ParseFilename : string -> option Z;
    (** [record.NewReader(f, fileNum)] *)
    NewReader : File -> Z -> record.Reader;
    (** [rangekey.Decode(ik, value, nil)] and [Span.Pretty] *)
    rangekey_Decode : InternalKey -> bytes -> Span + error;
    Pretty : Span -> keyFormatter -> string;
    (** the [Error()] text of an error value *)
    Error : error -> string;
    (** [fmtKey.setForComparer] and [fmtValue.setForComparer] for
        [w.defaultComparer] and [w.comparers] *)
    setForComparer : walT -> walT }.

Section Dump.

Variable E : Engine.
Variable w : walT.

(** The text of the [switch kind] of the entry loop: each case is one
    [Fprintf]. [seqNum] is [b.SeqNum()+uint64(idx)]. *)
Definition payload (seqNum : Z) (kind : InternalKeyKind)
    (ukey value : bytes) : string :=
  match kind with
  | InternalKeyKindDelete => fmtKey w ukey
  | InternalKeyKindSet => fmtKey w ukey +++ "," +++ fmtValue w ukey value
  | InternalKeyKindMerge => fmtKey w ukey +++ "," +++ fmtValue w ukey value
  | InternalKeyKindLogData =>
      "<" +++ fmt.d (Z.of_nat (List.length value)) +++ ">"
  | InternalKeyKindIngestSST =>
      let '(fileNum, _) := binary.Uvarint ukey in FileNum_String fileNum
  | InternalKeyKindSingleDelete => fmtKey w ukey
  | InternalKeyKindSetWithDelete => fmtKey w ukey
  | InternalKeyKindRangeDelete => fmtKey w ukey +++ "," +++ fmtKey w value
  | InternalKeyKindRangeKeySet
  | InternalKeyKindRangeKeyUnset
  | InternalKeyKindRangeKeyDelete =>
      let ik := MakeInternalKey ukey seqNum kind in
      match rangekey_Decode E ik value with
      | inr err => fmtKey w ukey +++ ": error decoding " +++ Error E err
      | inl s => Pretty E s (fmtKey w)
      end
  | InternalKeyKindDeleteSized =>
      let '(v, _) := binary.Uvarint value in
      fmtKey w ukey +++ "," +++ fmt.d v
  end.

(** The three [Fprintf] calls made for one entry. *)
Definition dumpEntry (seqNum : Z) (kind : InternalKeyKind)
    (ukey value : bytes) : output :=
  [ (Stdout, "    " +++ kindString kind +++ "(");
    (Stdout, payload seqNum kind ukey value);
    (Stdout, ")" +++ nl) ].

Definition corruptBatch (arg : string) (err : error) : output :=
  [ (Stdout, "corrupt batch within log file " +++ fmt.qs arg +++ ": "
               +++ Error E err) ].

(** [for r, idx := b.Reader(), 0; ; idx++]. Every entry [Next] returns
    takes at least its tag byte off the cursor, so [fuel] counts the
    bytes that are left, plus one. *)
Fixpoint entryLoop (fuel : nat) (arg : string) (b : pebble.Batch)
    (r : pebble.BatchReader) (idx : Z) : output :=
  match fuel with
  | O => []
  | S fuel' =>
      match pebble.Next r with
      | pebble.NextEnd => []
      | pebble.NextErr err => corruptBatch arg err
      | pebble.NextEntry kind ukey value r' =>
          dumpEntry (wrap64 (pebble.SeqNum b + idx)) kind ukey value
            ++ entryLoop fuel' arg b r' (idx + 1)
      end
  end.

Definition entriesFrom (arg : string) (b : pebble.Batch)
    (r : pebble.BatchReader) (idx : Z) : output :=
  entryLoop (S (List.length r)) arg b r idx.

Definition dumpEntries (arg : string) (b : pebble.Batch) : output :=
  entriesFrom arg b (pebble.Reader b) 0.

(** The line printed when the reader fails. *)
Definition readFailure (err : error) : output :=
  match err with
  | ErrZeroedChunk =>
      [ (Stdout, "EOF [" +++ Error E err
                   +++ "] (may be due to WAL preallocation)" +++ nl) ]
  | ErrInvalidChunk =>
      [ (Stdout, "EOF [" +++ Error E err
                   +++ "] (may be due to WAL recycling)" +++ nl) ]
  | _ => [ (Stdout, Error E err +++ nl) ]
  end.

Definition summary (offset : Z) (b : pebble.Batch) : stream * string :=
  (Stdout, fmt.d offset +++ "("
             +++ fmt.d (Z.of_nat (List.length (pebble.Repr b)))
             +++ ") seq=" +++ fmt.d (pebble.SeqNum b)
             +++ " count=" +++ fmt.d (pebble.Count b) +++ nl).

(** The [for] loop over the records of one file. *)
Fixpoint recordLoop (arg : string) (rr : record.Reader) : output :=
  match rr with
  | [] => readFailure EOF
  | (offset, inr err) :: _ => readFailure err
  | (offset, inl buf) :: rr' =>
      match pebble.SetRepr buf with
      | inr err => corruptBatch arg err
      | inl b =>
          summary offset b :: dumpEntries arg b ++ recordLoop arg rr'
      end
  end.

(** The body of the loop over the arguments. The deferred [f.Close()]
    writes nothing. *)
Definition dumpFile (arg : string) : output :=
  let fileNum :=
    match ParseFilename E arg with
    | Some n => n
    | None => 0
    end in
  match FS_Open E arg with
  | inr err => [ (Stderr, Error E err +++ nl) ]
  | inl f =>
      (Stdout, arg +++ nl) :: recordLoop arg (NewReader E f fileNum)
  end.

Definition dumpFiles (args : list string) : output :=
  flat_map dumpFile args.

End Dump.

Definition runDump (E : Engine) (w : walT) (args : list string) : output :=
  dumpFiles E (setForComparer E w) args.

(** The text a stream received. *)
Fixpoint written (s : stream) (o : output) : string :=
  match o with
  | [] => EmptyString
  | (s', t) :: o' =>
      match s, s' with
      | Stdout, Stdout | Stderr, Stderr => t +++ written s o'
      | _, _ => written s o'
      end
  end.

(** What one turn of the record loop prints for a step of the reader. *)
Definition recordOutput (E : Engine) (w : walT) (arg : string)
    (st : record.Step) : output :=
  match st with
  | (_, inr err) => readFailure E err
  | (offset, inl buf) =>
      match pebble.SetRepr buf with
      | inr err => corruptBatch E arg err
      | inl b => summary offset b :: dumpEntries E w arg b
      end
  end.

(** A step after which the record loop goes on: a record whose header
      [SetRepr] accepts. *)
Definition accepted (st : record.Step) : bool :=
  match st with
  | (_, inl buf) =>
      match pebble.SetRepr buf with
      | inl _ => true
      | inr _ => false
      end
  | (_, inr _) => false
  end.

Definition isRangeKey (k : InternalKeyKind) : bool :=
  match k with
  | InternalKeyKindRangeKeySet | InternalKeyKindRangeKeyUnset
  | InternalKeyKindRangeKeyDelete => true
  | _ => false
  end.

End tool.

(** ** A small engine to run the command on

    Three log files held in memory. A file is what a reader built on it
  yields for the file number it is given. *)

Module demo.

Definition errText (e : error) : string :=
  match e with
  | ErrZeroedChunk => "pebble/record: zeroed chunk"
  | ErrInvalidChunk => "pebble/record: invalid chunk"
  | EOF => "EOF"
  | ErrInvalidBatch ShortHeader => "pebble: invalid batch"
  | ErrInvalidBatch UnknownKind => "pebble: invalid batch: invalid key kind"
  | ErrInvalidBatch TruncatedKey => "pebble: invalid batch: decoding user key"
  | ErrInvalidBatch TruncatedValue => "pebble: invalid batch: decoding value"
  | ErrOther msg => msg
  end.

Definition entries1 : list pebble.Entry :=
  [ pebble.mkEntry InternalKeyKindSet ["k"%byte] ["a"; "b"; "c"]%byte;
    pebble.mkEntry InternalKeyKindRangeDelete ["a"%byte] ["z"%byte];
    pebble.mkEntry InternalKeyKindIngestSST ["*"%byte] [];
    pebble.mkEntry InternalKeyKindRangeKeySet ["a"%byte] ["z"%byte];
    pebble.mkEntry InternalKeyKindRangeKeyUnset ["b"%byte] [];
    pebble.mkEntry InternalKeyKindIngestSST [xff] [];
    pebble.mkEntry InternalKeyKindDeleteSized ["k"%byte] [xff];
    pebble.mkEntry InternalKeyKindDelete ["k"%byte] [] ].

Definition batch1 : bytes := pebble.encodeBatch 7 entries1.

(** A payload that declares two entries: a good one, and one that
    announces a value of five bytes and holds one byte of it. *)
Definition truncated : bytes :=
  binary.PutUint64 9 ++ binary.PutUint32 2
    ++ pebble.encodeEntry
         (pebble.mkEntry InternalKeyKindSet ["k"%byte] ["a"; "b"; "c"]%byte)
    ++ [x01; x01; "x"; x05; "a"]%byte.

Definition batch2 : bytes :=
  pebble.encodeBatch 20 [pebble.mkEntry InternalKeyKindMerge ["m"%byte] ["v"%byte]].

Definition files (arg : string) : (Z -> record.Reader) + error :=
  if String.eqb arg "000001.log" then
    inl (fun _ => [ (0, inl batch1); (57, inr ErrZeroedChunk); (64, inl batch2) ])
  else if String.eqb arg "000002.log" then
    inl (fun _ => [ (0, inl truncated); (31, inl batch2); (52, inr ErrInvalidChunk) ])
  else if String.eqb arg "wal.bin" then
    inl (fun fileNum =>
           if fileNum =? 0 then [ (0, inl batch2) ]
           else [ (0, inr ErrInvalidChunk) ])
  else if String.eqb arg "short.log" then
    inl (fun _ => [ (0, inl batch2); (21, inl [x01; x02]%byte); (30, inl batch2) ])
  else inr (ErrOther ("open " +++ arg +++ ": file does not exist")).

Definition parse (arg : string) : option Z :=
  if String.eqb arg "000001.log" then Some 1
  else if String.eqb arg "000002.log" then Some 2
  else None.

(** A range-key payload decodes when it is not empty. *)
Definition decode (ik : InternalKey) (value : bytes)
    : (InternalKey * bytes) + error :=
  match value with
  | [] => inr (ErrOther "range key value is empty")
  | _ => inl (ik, value)
  end.

Definition pretty (s : InternalKey * bytes) (fk : tool.keyFormatter) : string :=
  fk (UserKey (fst s)) +++ "#" +++ fmt.d (SeqNum (fst s)) +++ ":" +++ fk (snd s).

Definition engine : tool.Engine :=
  {| tool.File := Z -> record.Reader;
     tool.Span := InternalKey * bytes;
     tool.FS_Open := files;
     tool.ParseFilename := parse;
     tool.NewReader := fun f fileNum => f fileNum;
     tool.rangekey_Decode := decode;
     tool.Pretty := pretty;
     tool.Error := errText;
     tool.setForComparer := fun w => w |}.

End demo.

(** * Properties *)

Example uvarint_42 : binary.Uvarint ["*"%byte] = (42, 1).
Proof. reflexivity. Qed.

Example uvarint_300 : binary.Uvarint (binary.PutUvarint 300) = (300, 2).
Proof. reflexivity. Qed.

Example uvarint_max : binary.Uvarint (binary.PutUvarint (2 ^ 64 - 1)) = (2 ^ 64 - 1, 10).
Proof. vm_compute. reflexivity. Qed.

Example uvarint_trunc : binary.Uvarint [xff] = (0, 0).
Proof. reflexivity. Qed.

Example fmt_d_42 : fmt.d 42 = "42"%string.
Proof. reflexivity. Qed.

Example fmt_q_a : fmt.q ["a"%byte] = (dq +++ "a" +++ dq)%string.
Proof. reflexivity. Qed.

(** ** Bytes and varints *)


Lemma byteZ_byteOfZ (x : Z) : byteZ (binary.byteOfZ x) = x mod 256.
Proof.
  unfold binary.byteOfZ, byteZ.
  assert (Hr : 0 <= x mod 256 < 256) by (apply Z.mod_pos_bound; lia).
  destruct (Byte.of_N (Z.to_N (x mod 256))) as [b|] eqn:Hb.
  - apply Byte.to_of_N in Hb. rewrite Hb. lia.
  - apply Byte.of_N_None_iff in Hb. lia.
Qed.

Lemma byteZ_byteOfZ_small (x : Z) : 0 <= x < 256 -> byteZ (binary.byteOfZ x) = x.
Proof.
  intros H. rewrite byteZ_byteOfZ. apply Z.mod_small. exact H.
Qed.

(** A failed [Uvarint] returns the value 0, whatever the failure. *)
Lemma uvarintLoop_failure (buf : bytes) :
  forall x s i, 0 <= i ->
    snd (binary.uvarintLoop buf x s i) <= 0 ->
    fst (binary.uvarintLoop buf x s i) = 0.
Proof.
  induction buf as [|b rest IH]; intros x s i Hi; simpl.
  - reflexivity.
  - destruct (i =? binary.MaxVarintLen64); [reflexivity|].
    destruct (byteZ b <? 128).
    + destruct ((i =? _) && (1 <? byteZ b));
        simpl; [reflexivity | lia].
    + apply IH. lia.
Qed.

Lemma Uvarint_failure (buf : bytes) :
  snd (binary.Uvarint buf) <= 0 -> fst (binary.Uvarint buf) = 0.
Proof.
  apply uvarintLoop_failure. lia.
Qed.

(** The bytes read by a successful [Uvarint] are within the buffer. *)
Lemma uvarintLoop_count (buf : bytes) :
  forall x s i, 0 <= i ->
    snd (binary.uvarintLoop buf x s i) <= i + Z.of_nat (List.length buf).
Proof.
  induction buf as [|b rest IH]; intros x s i Hi; simpl List.length.
  - simpl. lia.
  - simpl binary.uvarintLoop.
    destruct (i =? binary.MaxVarintLen64); [simpl; lia|].
    destruct (byteZ b <? 128).
    + destruct ((i =? _) && (1 <? byteZ b)); simpl; lia.
    + specialize (IH (Z.lor x (wrap64 (Z.shiftl (Z.land (byteZ b) 127) s)))
                     (s + 7) (i + 1)). lia.
Qed.

Lemma split_low7 (x s : Z) :
  0 <= x -> 0 <= s ->
  Z.lor (Z.shiftl (x mod 128) s) (Z.shiftl (Z.shiftr x 7) (s + 7)) = Z.shiftl x s.
Proof.
  intros Hx Hs. apply Z.bits_inj'. intros n Hn.
  rewrite Z.lor_spec, !Z.shiftl_spec by lia.
  destruct (Z.ltb_spec n s) as [Hlt|Hge].
  - rewrite !Z.testbit_neg_r by lia. reflexivity.
  - destruct (Z.ltb_spec (n - s) 7) as [Hlow|Hhigh].
    + change 128 with (2 ^ 7). rewrite Z.mod_pow2_bits_low by lia.
      rewrite (Z.testbit_neg_r _ (n - (s + 7))) by lia.
      apply orb_false_r.
    + change 128 with (2 ^ 7). rewrite Z.mod_pow2_bits_high by lia.
      rewrite Z.shiftr_spec by lia.
      simpl. f_equal. lia.
Qed.

Lemma low7_of_continuation (x : Z) :
  0 <= x -> Z.land (Z.lor (x mod 256) 128 mod 256) 127 = x mod 128.
Proof.
  intros Hx. apply Z.bits_inj'. intros n Hn.
  replace 127 with (Z.ones 7) by reflexivity.
  replace 256 with (2 ^ 8) by reflexivity.
  replace 128 with (2 ^ 7) by reflexivity.
  rewrite Z.land_spec.
  destruct (Z.ltb_spec n 7) as [Hlow|Hhigh].
  - rewrite Z.ones_spec_low by lia.
    rewrite (Z.mod_pow2_bits_low _ 8) by lia.
    rewrite Z.lor_spec.
    rewrite !Z.mod_pow2_bits_low by lia.
    rewrite Z.pow2_bits_false by lia.
    rewrite orb_false_r, andb_true_r. reflexivity.
  - rewrite Z.ones_spec_high by lia.
    rewrite (Z.mod_pow2_bits_high _ 7) by lia.
    apply andb_false_r.
Qed.

Lemma continuation_high (x : Z) :
  0 <= x -> 128 <= Z.lor (x mod 256) 128 mod 256 < 256.
Proof.
  intros Hx.
  assert (Hm : 0 <= x mod 256 < 256) by (apply Z.mod_pos_bound; lia).
  assert (Hb : Z.testbit (Z.lor (x mod 256) 128) 7 = true).
  { rewrite Z.lor_spec. change 128 with (2 ^ 7).
    rewrite Z.pow2_bits_true by lia. apply orb_true_r. }
  assert (Hl : 0 <= Z.lor (x mod 256) 128) by (apply Z.lor_nonneg; lia).
  assert (Hu : Z.lor (x mod 256) 128 < 256).
  { destruct (Z.eq_dec (Z.lor (x mod 256) 128) 0) as [H0|H0]; [lia|].
    apply Z.log2_lt_pow2 with (b := 8); [lia|].
    rewrite Z.log2_lor by lia.
    apply Z.max_lub_lt.
    - destruct (Z.eq_dec (x mod 256) 0) as [Hz|Hz]; [rewrite Hz; simpl; lia|].
      apply Z.log2_lt_pow2; lia.
    - simpl. lia. }
  rewrite Z.mod_small by lia. split; [|lia].
  destruct (Z.ltb_spec (Z.lor (x mod 256) 128) 128) as [Hs|Hs]; [|lia].
  assert (Hbits : Z.testbit (Z.lor (x mod 256) 128) 7 = false).
  { destruct (Z.eq_dec (Z.lor (x mod 256) 128) 0) as [H0|H0].
    - rewrite H0. apply Z.bits_0.
    - apply Z.bits_above_log2; [lia|].
      apply Z.log2_lt_pow2; [lia|]. simpl. lia. }
  congruence.
Qed.

Lemma shiftl_le_mono (a b k : Z) :
  0 <= k -> a <= b -> Z.shiftl a k <= Z.shiftl b k.
Proof.
  intros Hk Hab. rewrite !Z.shiftl_mul_pow2 by lia.
  apply Z.mul_le_mono_nonneg_r; [apply Z.pow_nonneg; lia | exact Hab].
Qed.

Lemma shiftr7_shiftl (x k : Z) :
  0 <= x -> 0 <= k -> Z.shiftl (Z.shiftr x 7) (k + 7) <= Z.shiftl x k.
Proof.
  intros Hx Hk. rewrite !Z.shiftl_mul_pow2, Z.shiftr_div_pow2 by lia.
  rewrite Z.pow_add_r by lia.
  assert (Hp : 0 <= 2 ^ k) by (apply Z.pow_nonneg; lia).
  change (2 ^ 7) with 128.
  pose proof (Z.mul_div_le x 128 ltac:(lia)) as Hd.
  nia.
Qed.

Lemma uvarintLoop_put (n : nat) :
  forall x acc i rest,
    0 <= x < 2 ^ (7 * (Z.of_nat n + 1)) ->
    0 <= i -> i + Z.of_nat n <= 9 ->
    Z.shiftl x (7 * i) < 2 ^ 64 ->
    binary.uvarintLoop (binary.putUvarintLoop n x ++ rest) acc (7 * i) i
    = (Z.lor acc (Z.shiftl x (7 * i)),
       i + Z.of_nat (List.length (binary.putUvarintLoop n x))).
Proof.
  assert (Hlast : forall x acc i rest,
    0 <= x < 128 -> 0 <= i <= 9 -> Z.shiftl x (7 * i) < 2 ^ 64 ->
    binary.uvarintLoop ([binary.byteOfZ x] ++ rest) acc (7 * i) i
    = (Z.lor acc (Z.shiftl x (7 * i)), i + 1)).
  { intros x acc i rest Hx Hi Hs. cbn [binary.uvarintLoop List.app].
    rewrite byteZ_byteOfZ_small by lia.
    destruct (Z.eqb_spec i binary.MaxVarintLen64) as [E|_];
      [unfold binary.MaxVarintLen64 in E; lia|].
    destruct (Z.ltb_spec x 128) as [_|]; [|lia].
    assert (Hnn : 0 <= Z.shiftl x (7 * i)) by (apply Z.shiftl_nonneg; lia).
    replace ((i =? binary.MaxVarintLen64 - 1) && (1 <? x)) with false.
    - unfold wrap64. rewrite Z.mod_small by lia. reflexivity.
    - symmetry. apply andb_false_iff.
      destruct (Z.eqb_spec i (binary.MaxVarintLen64 - 1)) as [E|];
        [right|left; reflexivity].
      change (binary.MaxVarintLen64 - 1) with 9 in E. subst i.
      apply Z.ltb_ge.
      rewrite Z.shiftl_mul_pow2 in Hs by lia.
      change (2 ^ 64) with (2 * 2 ^ (7 * 9)) in Hs. nia. }
  induction n as [|n IH]; intros x acc i rest Hx Hi Hn Hs.
  - cbn [binary.putUvarintLoop].
    change (2 ^ (7 * (Z.of_nat 0 + 1))) with 128 in Hx.
    rewrite Hlast by lia. reflexivity.
  - cbn [binary.putUvarintLoop].
    destruct (Z.leb_spec 128 x) as [Hbig|Hsmall].
    + assert (Hc := continuation_high x ltac:(lia)).
      cbn [binary.uvarintLoop List.app]. rewrite byteZ_byteOfZ.
      destruct (Z.eqb_spec i binary.MaxVarintLen64) as [E|_];
        [unfold binary.MaxVarintLen64 in E; lia|].
      destruct (Z.ltb_spec (Z.lor (x mod 256) 128 mod 256) 128) as [|_]; [lia|].
      rewrite low7_of_continuation by lia.
      replace (7 * i + 7) with (7 * (i + 1)) by lia.
      assert (Hsh : 0 <= Z.shiftr x 7) by (apply Z.shiftr_nonneg; lia).
      assert (Hle : Z.shiftl (Z.shiftr x 7) (7 * (i + 1)) <= Z.shiftl x (7 * i)).
      { replace (7 * (i + 1)) with (7 * i + 7) by lia.
        apply shiftr7_shiftl; lia. }
      assert (Hlow : 0 <= Z.shiftl (x mod 128) (7 * i) < 2 ^ 64).
      { split; [apply Z.shiftl_nonneg; apply Z.mod_pos_bound; lia|].
        apply Z.le_lt_trans with (Z.shiftl x (7 * i)); [|exact Hs].
        apply shiftl_le_mono; [lia|]. apply Z.mod_le; lia. }
      rewrite IH.
      * f_equal; [|cbn [List.length]; lia].
        unfold wrap64. rewrite Z.mod_small by exact Hlow.
        rewrite <- Z.lor_assoc.
        replace (7 * (i + 1)) with (7 * i + 7) by lia.
        rewrite split_low7 by lia. reflexivity.
      * split; [lia|].
        rewrite Z.shiftr_div_pow2 by lia.
        apply Z.div_lt_upper_bound; [lia|].
        rewrite <- Z.pow_add_r by lia.
        replace (7 + 7 * (Z.of_nat n + 1)) with (7 * (Z.of_nat (S n) + 1)) by lia.
        lia.
      * lia.
      * lia.
      * lia.
    + rewrite Hlast by lia. reflexivity.
Qed.

Lemma putUvarintLoop_length (n : nat) (x : Z) :
  (1 <= List.length (binary.putUvarintLoop n x) <= S n)%nat.
Proof.
  revert x. induction n as [|n IH]; intros x; cbn [binary.putUvarintLoop].
  - simpl. lia.
  - destruct (128 <=? x); cbn [List.length]; [specialize (IH (Z.shiftr x 7))|]; lia.
Qed.

(** Decoding what [PutUvarint] wrote gives the value back and reads
    exactly the bytes written, whatever follows them. *)
Lemma Uvarint_PutUvarint (x : Z) (rest : bytes) :
  0 <= x < 2 ^ 64 ->
  binary.Uvarint (binary.PutUvarint x ++ rest)
  = (x, Z.of_nat (List.length (binary.PutUvarint x))).
Proof.
  intros Hx. unfold binary.Uvarint, binary.PutUvarint.
  change 0 with (7 * 0) at 2.
  rewrite uvarintLoop_put.
  - rewrite Z.shiftl_0_r. reflexivity.
  - change (2 ^ (7 * (Z.of_nat 9 + 1))) with (2 ^ 64 * 64). lia.
  - lia.
  - simpl. lia.
  - rewrite Z.shiftl_0_r. lia.
Qed.

Lemma leUint_lePut (n : nat) :
  forall x rest, 0 <= x ->
    binary.leUint n (binary.lePut n x ++ rest) = x mod 2 ^ (8 * Z.of_nat n).
Proof.
  induction n as [|n IH]; intros x rest Hx.
  - simpl. rewrite Z.mod_1_r. reflexivity.
  - cbn [binary.lePut binary.leUint List.app].
    rewrite byteZ_byteOfZ, IH by (apply Z.shiftr_nonneg; lia).
    apply Z.bits_inj'. intros m Hm.
    rewrite Z.lor_spec, Z.shiftl_spec by lia.
    change 256 with (2 ^ 8).
    destruct (Z.ltb_spec m 8) as [Hlow|Hhigh].
    + rewrite (Z.mod_pow2_bits_low x 8) by lia.
      rewrite (Z.mod_pow2_bits_low x (8 * Z.of_nat (S n))) by lia.
      rewrite (Z.testbit_neg_r _ (m - 8)) by lia. apply orb_false_r.
    + rewrite (Z.mod_pow2_bits_high x 8) by lia. cbn [orb].
      destruct (Z.ltb_spec (m - 8) (8 * Z.of_nat n)) as [Hin|Hout].
      * rewrite (Z.mod_pow2_bits_low _ (8 * Z.of_nat n)) by lia.
        rewrite (Z.mod_pow2_bits_low x (8 * Z.of_nat (S n))) by lia.
        rewrite Z.shiftr_spec by lia. f_equal. lia.
      * rewrite (Z.mod_pow2_bits_high _ (8 * Z.of_nat n)) by lia.
        rewrite (Z.mod_pow2_bits_high x (8 * Z.of_nat (S n))) by lia.
        reflexivity.
Qed.

Lemma lePut_length (n : nat) : forall x, List.length (binary.lePut n x) = n.
Proof.
  induction n as [|n IH]; intros x; simpl; [reflexivity|].
  rewrite IH. reflexivity.
Qed.

(** ** The batch decoder *)

Lemma batchDecodeStr_length (r field rest : bytes) :
  pebble.batchDecodeStr r = Some (field, rest) ->
  (List.length rest <= List.length r)%nat.
Proof.
  unfold pebble.batchDecodeStr.
  destruct (binary.Uvarint r) as [v n].
  destruct (n <=? 0); [discriminate|].
  destruct (Z.of_nat (List.length (skipn (Z.to_nat n) r)) <? v); [discriminate|].
  intros H. injection H as _ <-.
  rewrite !length_skipn. lia.
Qed.

(** Every entry [Next] returns shortens the cursor. *)
Lemma Next_shortens (r r' : pebble.BatchReader) kind ukey value :
  pebble.Next r = pebble.NextEntry kind ukey value r' ->
  (List.length r' < List.length r)%nat.
Proof.
  unfold pebble.Next. destruct r as [|t r1]; [discriminate|].
  destruct (kindOfTag (byteZ t)) as [k|]; [|discriminate].
  destruct (pebble.batchDecodeStr r1) as [[u r2]|] eqn:Hk; [|discriminate].
  apply batchDecodeStr_length in Hk.
  destruct (pebble.hasValue k).
  - destruct (pebble.batchDecodeStr r2) as [[v r3]|] eqn:Hv; [|discriminate].
    apply batchDecodeStr_length in Hv.
    intros H. injection H as _ _ _ <-. simpl. lia.
  - intros H. injection H as _ _ _ <-. simpl. lia.
Qed.

Lemma decodeEntries_fuel (n : nat) :
  forall m r, (List.length r < n)%nat -> (List.length r < m)%nat ->
    pebble.decodeEntries n r = pebble.decodeEntries m r.
Proof.
  induction n as [|n IH]; intros m r Hn Hm; [lia|].
  destruct m as [|m]; [lia|].
  cbn [pebble.decodeEntries].
  destruct (pebble.Next r) as [k u v r'| |e] eqn:HN; try reflexivity.
  apply Next_shortens in HN.
  rewrite (IH m r') by lia. reflexivity.
Qed.

(** The equation of [entriesOf]: one [Next], then the rest of the cursor. *)
Lemma entriesOf_step (r : pebble.BatchReader) :
  pebble.entriesOf r =
  match pebble.Next r with
  | pebble.NextEnd => ([], None)
  | pebble.NextErr err => ([], Some err)
  | pebble.NextEntry kind ukey value r' =>
      (pebble.mkEntry kind ukey value :: fst (pebble.entriesOf r'),
       snd (pebble.entriesOf r'))
  end.
Proof.
  unfold pebble.entriesOf at 1. cbn [pebble.decodeEntries].
  destruct (pebble.Next r) as [k u v r'| |e] eqn:HN; try reflexivity.
  apply Next_shortens in HN.
  unfold pebble.entriesOf.
  rewrite (decodeEntries_fuel (List.length r) (S (List.length r')) r') by lia.
  destruct (pebble.decodeEntries (S (List.length r')) r'). reflexivity.
Qed.

Lemma kindOfTag_kindTag (k : InternalKeyKind) :
  kindOfTag (byteZ (binary.byteOfZ (kindTag k))) = Some k.
Proof.
  destruct k; reflexivity.
Qed.

Lemma batchDecodeStr_encodeStr (s rest : bytes) :
  Z.of_nat (List.length s) < 2 ^ 64 ->
  pebble.batchDecodeStr (pebble.encodeStr s ++ rest) = Some (s, rest).
Proof.
  intros Hs. unfold pebble.batchDecodeStr, pebble.encodeStr.
  rewrite <- List.app_assoc, Uvarint_PutUvarint by lia.
  pose proof (putUvarintLoop_length 9 (Z.of_nat (List.length s))) as Hl.
  fold (binary.PutUvarint (Z.of_nat (List.length s))) in Hl.
  destruct (Z.leb_spec (Z.of_nat (List.length (binary.PutUvarint (Z.of_nat (List.length s))))) 0)
    as [Hbad|_]; [lia|].
  rewrite !Nat2Z.id, skipn_app, skipn_all, Nat.sub_diag. cbn [skipn List.app].
  rewrite length_app.
  destruct (Z.ltb_spec (Z.of_nat (List.length s + List.length rest))
              (Z.of_nat (List.length s))) as [Hbad|_]; [lia|].
  rewrite firstn_app, firstn_all, Nat.sub_diag, skipn_app, skipn_all, Nat.sub_diag.
  cbn [firstn skipn]. rewrite List.app_nil_r. reflexivity.
Qed.

(** Decoding an encoded entry gives the entry back and leaves the cursor
    on what follows it. *)
Lemma Next_encodeEntry (e : pebble.Entry) (rest : bytes) :
  pebble.wfEntry e = true ->
  pebble.Next (pebble.encodeEntry e ++ rest)
  = pebble.NextEntry (pebble.ekind e) (pebble.ekey e) (pebble.evalue e) rest.
Proof.
  unfold pebble.wfEntry. intros Hwf.
  apply andb_prop in Hwf as [Hwf Hv]. apply andb_prop in Hwf as [Hk Hl].
  apply Z.ltb_lt in Hk, Hl.
  unfold pebble.encodeEntry, pebble.Next. cbn [List.app].
  rewrite kindOfTag_kindTag, <- List.app_assoc, batchDecodeStr_encodeStr by exact Hk.
  destruct (pebble.hasValue (pebble.ekind e)).
  - rewrite batchDecodeStr_encodeStr by exact Hl. reflexivity.
  - cbn [orb] in Hv. destruct (pebble.evalue e); [reflexivity|discriminate].
Qed.

Lemma entriesOf_encode (es : list pebble.Entry) :
  forallb pebble.wfEntry es = true ->
  pebble.entriesOf (List.concat (map pebble.encodeEntry es)) = (es, None).
Proof.
  induction es as [|e es IH]; intros Hwf.
  - reflexivity.
  - cbn [forallb] in Hwf. apply andb_prop in Hwf as [He Hes].
    cbn [map List.concat]. rewrite entriesOf_step, Next_encodeEntry by exact He.
    rewrite IH by exact Hes. destruct e. reflexivity.
Qed.

(** An encoded batch is accepted by [SetRepr]; its header reads back as
    the sequence number and the count it was built with and its cursor
    decodes into the entries it was built from. *)
Lemma SetRepr_encodeBatch (seq : Z) (es : list pebble.Entry) :
  pebble.wfBatch seq es = true ->
  exists b,
    pebble.SetRepr (pebble.encodeBatch seq es) = inl b
    /\ pebble.SeqNum b = seq
    /\ pebble.Count b = Z.of_nat (List.length es)
    /\ pebble.entriesOf (pebble.Reader b) = (es, None).
Proof.
  unfold pebble.wfBatch. intros Hwf.
  apply andb_prop in Hwf as [Hwf Hes]. apply andb_prop in Hwf as [Hwf Hc].
  apply andb_prop in Hwf as [H0 H1].
  apply Z.leb_le in H0. apply Z.ltb_lt in H1, Hc.
  exists {| pebble.data := pebble.encodeBatch seq es;
            pebble.count := Z.of_nat (List.length es) |}.
  unfold pebble.SetRepr, pebble.SeqNum, pebble.Count, pebble.Reader,
    pebble.encodeBatch, binary.PutUint64, binary.PutUint32.
  cbn [pebble.data pebble.count].
  repeat split.
  - rewrite !length_app, !lePut_length.
    destruct (Z.ltb_spec (Z.of_nat (8 + (4 + List.length (List.concat (map pebble.encodeEntry es)))))
                pebble.batchHeaderLen) as [Hbad|_];
      [unfold pebble.batchHeaderLen in Hbad; lia|].
    f_equal. f_equal.
    rewrite skipn_app, lePut_length, skipn_all2 by (rewrite lePut_length; lia).
    cbn [List.app Nat.sub skipn].
    unfold binary.Uint32. rewrite leUint_lePut by lia.
    apply Z.mod_small. change (2 ^ (8 * Z.of_nat 4)) with (2 ^ 32). lia.
  - unfold binary.Uint64. rewrite leUint_lePut by lia.
    apply Z.mod_small. change (2 ^ (8 * Z.of_nat 8)) with (2 ^ 64). lia.
  - rewrite List.app_assoc, skipn_app, skipn_all2
      by (rewrite length_app, !lePut_length; simpl; lia).
    rewrite length_app, !lePut_length.
    change (Z.to_nat pebble.batchHeaderLen - (8 + 4))%nat with 0%nat.
    cbn [List.app skipn]. apply entriesOf_encode. exact Hes.
Qed.

(** ** The entry loop *)

Section EntryLoop.

Variable E : tool.Engine.
Variable w : tool.walT.
Variable arg : string.
Variable b : pebble.Batch.

(** The loop never runs out of fuel before the cursor is empty. *)
Lemma entryLoop_fuel (n : nat) :
  forall m r idx, (List.length r < n)%nat -> (List.length r < m)%nat ->
    tool.entryLoop E w n arg b r idx = tool.entryLoop E w m arg b r idx.
Proof.
  induction n as [|n IH]; intros m r idx Hn Hm; [lia|].
  destruct m as [|m]; [lia|].
  cbn [tool.entryLoop].
  destruct (pebble.Next r) as [k u v r'| |e] eqn:HN; try reflexivity.
  apply Next_shortens in HN.
  rewrite (IH m r') by lia. reflexivity.
Qed.

(** The equation of the entry loop: one iteration, then the loop again on
    the advanced cursor with the next index. *)
Lemma entriesFrom_step (r : pebble.BatchReader) (idx : Z) :
  tool.entriesFrom E w arg b r idx =
  match pebble.Next r with
  | pebble.NextEnd => []
  | pebble.NextErr err => tool.corruptBatch E arg err
  | pebble.NextEntry kind ukey value r' =>
      tool.dumpEntry E w (wrap64 (pebble.SeqNum b + idx)) kind ukey value
        ++ tool.entriesFrom E w arg b r' (idx + 1)
  end.
Proof.
  unfold tool.entriesFrom at 1. cbn [tool.entryLoop].
  destruct (pebble.Next r) as [k u v r'| |e] eqn:HN; try reflexivity.
  apply Next_shortens in HN. unfold tool.entriesFrom.
  rewrite (entryLoop_fuel (List.length r) (S (List.length r')) r') by lia.
  reflexivity.
Qed.

(** What the loop prints for a cursor, in terms of what the cursor decodes
    into: one group of writes per entry, in order, each with the sequence
    number of the batch plus the entry's index, and then the corrupt-batch
    message when the decoding ended on a violation. *)
Lemma entriesFrom_decoded (es : list pebble.Entry) :
  forall r idx res,
    pebble.entriesOf r = (es, res) ->
    exists lines : list tool.output,
      tool.entriesFrom E w arg b r idx
      = List.concat lines
          ++ match res with
             | None => []
             | Some err => tool.corruptBatch E arg err
             end
      /\ List.length lines = List.length es
      /\ forall i e, nth_error es i = Some e ->
           nth_error lines i
           = Some (tool.dumpEntry E w
                     (wrap64 (pebble.SeqNum b + (idx + Z.of_nat i)))
                     (pebble.ekind e) (pebble.ekey e) (pebble.evalue e)).
Proof.
  induction es as [|e es IH]; intros r idx res Hdec;
    rewrite entriesOf_step in Hdec; rewrite entriesFrom_step;
    destruct (pebble.Next r) as [k u v r'| |err]; try discriminate.
  - exists []. injection Hdec as <-. repeat split.
    intros i e H. destruct i; discriminate.
  - exists []. injection Hdec as <-. repeat split.
    intros i e H. destruct i; discriminate.
  - injection Hdec as He Hes Hres.
    destruct (pebble.entriesOf r') as [es' res'] eqn:Hr'.
    cbn [fst snd] in Hes, Hres. subst es' res' e.
    destruct (IH r' (idx + 1) res Hr') as (lines & Hout & Hlen & Hnth).
    exists (tool.dumpEntry E w (wrap64 (pebble.SeqNum b + idx)) k u v :: lines).
    split; [|split].
    + cbn [List.concat]. rewrite Hout, List.app_assoc. reflexivity.
    + cbn [List.length]. rewrite Hlen. reflexivity.
    + intros i e Hi. destruct i as [|i]; cbn [nth_error] in *.
      * injection Hi as <-. cbn [pebble.ekind pebble.ekey pebble.evalue].
        rewrite Z.add_0_r. reflexivity.
      * rewrite (Hnth i e Hi). do 3 f_equal. lia.
Qed.

End EntryLoop.

(** ** The record loop and the loop over the files *)




(** An encoded batch is a well-formed payload. *)
Lemma wellFormed_encodeBatch (seq : Z) (es : list pebble.Entry) :
  pebble.wfBatch seq es = true ->
  exists b,
    pebble.wellFormed (pebble.encodeBatch seq es) = Some (b, es)
    /\ pebble.SeqNum b = seq.
Proof.
  intros Hwf.
  destruct (SetRepr_encodeBatch seq es Hwf) as (b & Hset & Hseq & Hcount & Hdec).
  exists b. split; [|exact Hseq].
  unfold pebble.wellFormed. rewrite Hset, Hdec, Hcount, Z.eqb_refl. reflexivity.
Qed.

(** Records whose header is accepted are processed one after the other,
    and what is printed for them does not depend on what follows. *)
Lemma recordLoop_accepted (E : tool.Engine) (w : tool.walT) (arg : string)
    (pre tail : record.Reader) :
  forallb tool.accepted pre = true ->
  tool.recordLoop E w arg (pre ++ tail)
  = flat_map (tool.recordOutput E w arg) pre ++ tool.recordLoop E w arg tail.
Proof.
  induction pre as [|[offset [buf|err]] pre IH]; intros Hacc.
  - reflexivity.
  - cbn [forallb tool.accepted] in Hacc.
    cbn [List.app tool.recordLoop flat_map tool.recordOutput].
    destruct (pebble.SetRepr buf) as [b|err]; [|discriminate].
    cbn [andb] in Hacc. rewrite IH by exact Hacc.
    rewrite <- List.app_comm_cons, List.app_assoc. reflexivity.
  - discriminate.
Qed.

Lemma dumpFiles_app (E : tool.Engine) (w : tool.walT) (before after : list string) :
  tool.dumpFiles E w (before ++ after)
  = tool.dumpFiles E w before ++ tool.dumpFiles E w after.
Proof.
  apply flat_map_app.
Qed.

Lemma header_violation_ends_file (E : tool.Engine) (w : tool.walT)
    (arg : string) (offset : Z) (buf : bytes) (rr : record.Reader) (err : error) :
  pebble.SetRepr buf = inr err ->
  tool.recordLoop E w arg ((offset, inl buf) :: rr) = tool.corruptBatch E arg err.
Proof.
  intros H. cbn [tool.recordLoop]. rewrite H. reflexivity.
Qed.

(** After a violation in an entry the message is printed and the record
    loop goes on with the next record of the file. *)
Lemma entry_violation_reads_on (E : tool.Engine) (w : tool.walT)
    (arg : string) (offset : Z) (buf : bytes) (rr : record.Reader)
    (b : pebble.Batch) (es : list pebble.Entry) (err : error) :
  pebble.SetRepr buf = inl b ->
  pebble.entriesOf (pebble.Reader b) = (es, Some err) ->
  exists lines : list tool.output,
    List.length lines = List.length es
    /\ tool.recordLoop E w arg ((offset, inl buf) :: rr)
       = tool.summary offset b :: List.concat lines
           ++ tool.corruptBatch E arg err ++ tool.recordLoop E w arg rr.
Proof.
  intros Hset Hdec. cbn [tool.recordLoop]. rewrite Hset.
  destruct (entriesFrom_decoded E w arg b es (pebble.Reader b) 0 (Some err) Hdec)
    as (lines & Hout & Hlen & _).
  exists lines. split; [exact Hlen|].
  unfold tool.dumpEntries. rewrite Hout, <- List.app_assoc. reflexivity.
Qed.


(** Three paths of which the second does not exist: the first and the
    third are dumped and the second leaves one line on the error stream. *)
Example three_paths_second_missing :
  tool.written tool.Stdout
    (tool.runDump demo.engine tool.newWAL ["wal.bin"; "nope"; "wal.bin"])
  = "wal.bin" +++ nl +++ "0(17) seq=20 count=1" +++ nl
      +++ "    Merge(" +++ dq +++ "m" +++ dq +++ ",1)" +++ nl +++ "EOF" +++ nl
      +++ "wal.bin" +++ nl +++ "0(17) seq=20 count=1" +++ nl
      +++ "    Merge(" +++ dq +++ "m" +++ dq +++ ",1)" +++ nl +++ "EOF" +++ nl
  /\ tool.written tool.Stderr
       (tool.runDump demo.engine tool.newWAL ["wal.bin"; "nope"; "wal.bin"])
     = "open nope: file does not exist" +++ nl.
Proof.
  split; vm_compute; reflexivity.
Qed.

(** * The claims *)



(** C2. When the record reader fails while a file is dumped, a zeroed chunk
    is printed as an EOF line naming WAL preallocation, an invalid chunk as
    an EOF line naming WAL recycling and any other failure as its own text;
    in all three cases nothing more is read from that file and the run goes
    on with the next file. *)
Theorem C2_reader_failure_ends_file (E : tool.Engine) (w : tool.walT)
    (arg : string) (args : list string) (f : tool.File E)
    (pre tail : record.Reader) (err : error) :
  tool.FS_Open E arg = inl f ->
  tool.NewReader E f
    match tool.ParseFilename E arg with Some n => n | None => 0 end
  = pre ++ tail ->
  forallb tool.accepted pre = true ->
  record.nextFailure tail = Some err ->
  tool.runDump E w (arg :: args)
  = (tool.Stdout, arg +++ nl)
      :: flat_map (tool.recordOutput E (tool.setForComparer E w) arg) pre
      ++ (tool.Stdout,
          match err with
          | ErrZeroedChunk =>
              "EOF [" +++ tool.Error E ErrZeroedChunk
                +++ "] (may be due to WAL preallocation)" +++ nl
          | ErrInvalidChunk =>
              "EOF [" +++ tool.Error E ErrInvalidChunk
                +++ "] (may be due to WAL recycling)" +++ nl
          | _ => tool.Error E err +++ nl
          end)
      :: tool.runDump E w args.
Proof.
  intros Hopen Hrr Hacc Hfail.
  unfold tool.runDump, tool.dumpFiles. cbn [flat_map].
  unfold tool.dumpFile at 1. rewrite Hopen, Hrr.
  rewrite recordLoop_accepted by exact Hacc.
  rewrite <- List.app_comm_cons, <- List.app_assoc. do 2 f_equal.
  destruct tail as [|[offset [buf|err']] rest]; cbn [record.nextFailure] in Hfail;
    try discriminate; injection Hfail as <-; cbn [tool.recordLoop].
  - reflexivity.
  - destruct err'; reflexivity.
Qed.

Lemma C2_reader_failure_ends_file_witness :
  tool.FS_Open demo.engine "000001.log"
  = inl (fun _ => [ (0, inl demo.batch1); (57, inr ErrZeroedChunk);
                    (64, inl demo.batch2) ])
  /\ forallb tool.accepted [ (0, inl demo.batch1) ] = true
  /\ tool.runDump demo.engine tool.newWAL ["000001.log"; "000002.log"]
     = (tool.Stdout, "000001.log" +++ nl)
         :: flat_map (tool.recordOutput demo.engine tool.newWAL "000001.log")
              [ (0, inl demo.batch1) ]
         ++ (tool.Stdout,
             "EOF [pebble/record: zeroed chunk] (may be due to WAL preallocation)"
               +++ nl)
         :: tool.runDump demo.engine tool.newWAL ["000002.log"].
Proof.
  split; [reflexivity|]. split; [vm_compute; reflexivity|].
  apply (C2_reader_failure_ends_file demo.engine tool.newWAL "000001.log"
           ["000002.log"]
           (fun _ => [ (0, inl demo.batch1); (57, inr ErrZeroedChunk);
                       (64, inl demo.batch2) ])
           [ (0, inl demo.batch1) ]
           [ (57, inr ErrZeroedChunk); (64, inl demo.batch2) ] ErrZeroedChunk).
  - reflexivity.
  - reflexivity.
  - vm_compute. reflexivity.
  - reflexivity.
Defined.

(** C3. The claim asks that a structural violation found while an entry is
    decoded ends the processing of the file. It does not: the message is
    printed, without a line break, and the record loop reads the next record
    of the same file. Here the first record of a file declares two entries,
    a good one and one whose value is truncated, and the record at offset 31
    is still read and printed. *)
Theorem C3_entry_violation_does_not_end_file :
  tool.runDump demo.engine tool.newWAL ["000002.log"]%string
  = [ (tool.Stdout, "000002.log" +++ nl);
      (tool.Stdout, "0(24) seq=9 count=2" +++ nl);
      (tool.Stdout, "    Set(");
      (tool.Stdout, dq +++ "k" +++ dq +++ ",3");
      (tool.Stdout, ")" +++ nl);
      (tool.Stdout,
       "corrupt batch within log file " +++ dq +++ "000002.log" +++ dq
         +++ ": pebble: invalid batch: decoding value");
      (tool.Stdout, "31(17) seq=20 count=1" +++ nl);
      (tool.Stdout, "    Merge(");
      (tool.Stdout, dq +++ "m" +++ dq +++ ",1");
      (tool.Stdout, ")" +++ nl);
      (tool.Stdout,
       "EOF [pebble/record: invalid chunk] (may be due to WAL recycling)"
         +++ nl) ].
Proof.
  vm_compute. reflexivity.
Qed.

(** C4. Every path is attempted, in the order given: whatever the files
    before it printed, a path has its own turn and the paths after it have
    theirs; a path that cannot be opened prints its error on the error
    stream and nothing else. *)
Theorem C4_every_path_attempted (E : tool.Engine) (w : tool.walT)
    (before after : list string) (arg : string) :
  tool.runDump E w (before ++ arg :: after)
  = tool.runDump E w before
      ++ tool.dumpFile E (tool.setForComparer E w) arg
      ++ tool.runDump E w after
  /\ tool.dumpFile E (tool.setForComparer E w) arg
     = match tool.FS_Open E arg with
       | inr err => [ (tool.Stderr, tool.Error E err +++ nl) ]
       | inl f =>
           (tool.Stdout, arg +++ nl)
             :: tool.recordLoop E (tool.setForComparer E w) arg
                  (tool.NewReader E f
                     match tool.ParseFilename E arg with
                     | Some n => n
                     | None => 0
                     end)
       end.
Proof.
  split.
  - unfold tool.runDump. rewrite dumpFiles_app. reflexivity.
  - unfold tool.dumpFile. destruct (tool.FS_Open E arg); reflexivity.
Qed.

(** C5. When the nested range-key structure of a RangeKeySet, RangeKeyUnset
    or RangeKeyDelete entry fails to decode, the line of the entry is still
    printed, with the formatted key followed by the decode error, and the
    loop goes on with the entries after it. *)
Theorem C5_range_key_decode_failure_is_local (E : tool.Engine) (w : tool.walT)
    (arg : string) (b : pebble.Batch) (r r' : pebble.BatchReader) (idx : Z)
    (kind : InternalKeyKind) (ukey value : bytes) (err : error) :
  pebble.Next r = pebble.NextEntry kind ukey value r' ->
  tool.isRangeKey kind = true ->
  tool.rangekey_Decode E
    (MakeInternalKey ukey (wrap64 (pebble.SeqNum b + idx)) kind) value
  = inr err ->
  tool.entriesFrom E w arg b r idx
  = (tool.Stdout, "    " +++ kindString kind +++ "(")
      :: (tool.Stdout,
          tool.fmtKey w ukey +++ ": error decoding " +++ tool.Error E err)
      :: (tool.Stdout, ")" +++ nl)
      :: tool.entriesFrom E w arg b r' (idx + 1).
Proof.
  intros Hnext Hkind Hdec. rewrite entriesFrom_step, Hnext.
  unfold tool.dumpEntry, tool.payload.
  destruct kind; try discriminate; rewrite Hdec; reflexivity.
Qed.

Lemma C5_range_key_decode_failure_is_local_witness :
  pebble.Next [x14; x01; "b"; x00; x00; x01; "k"]%byte
  = pebble.NextEntry InternalKeyKindRangeKeyUnset ["b"%byte] [] [x00; x01; "k"]%byte
  /\ tool.entriesFrom demo.engine tool.newWAL "000001.log"
       {| pebble.data := demo.batch1; pebble.count := 8 |}
       [x14; x01; "b"; x00; x00; x01; "k"]%byte 4
     = (tool.Stdout, "    RangeKeyUnset(")
         :: (tool.Stdout,
             dq +++ "b" +++ dq +++ ": error decoding range key value is empty")
         :: (tool.Stdout, ")" +++ nl)
         :: tool.entriesFrom demo.engine tool.newWAL "000001.log"
              {| pebble.data := demo.batch1; pebble.count := 8 |}
              [x00; x01; "k"]%byte 5.
Proof.
  split; [reflexivity|].
  apply (C5_range_key_decode_failure_is_local demo.engine tool.newWAL
           "000001.log" {| pebble.data := demo.batch1; pebble.count := 8 |}
           [x14; x01; "b"; x00; x00; x01; "k"]%byte [x00; x01; "k"]%byte 4
           InternalKeyKindRangeKeyUnset ["b"%byte] []
           (ErrOther "range key value is empty")).
  - reflexivity.
  - reflexivity.
  - reflexivity.
Defined.

(** C6. The payload printed for an IngestSST entry is the unsigned integer
    that [binary.Uvarint] decodes from the key field: a key that holds the
    varint encoding of [x] prints [x], and 42 prints [IngestSST(42)]. *)
Theorem C6_ingest_sst_payload (E : tool.Engine) (w : tool.walT)
    (seqNum x : Z) (value rest : bytes) :
  0 <= x < 2 ^ 64 ->
  (forall ukey,
     tool.payload E w seqNum InternalKeyKindIngestSST ukey value
     = fmt.d (fst (binary.Uvarint ukey)))
  /\ tool.payload E w seqNum InternalKeyKindIngestSST
       (binary.PutUvarint x ++ rest) value
     = fmt.d x
  /\ tool.written tool.Stdout
       (tool.dumpEntry E w seqNum InternalKeyKindIngestSST
          (binary.PutUvarint x ++ rest) value)
     = "    IngestSST(" +++ fmt.d x +++ ")" +++ nl.
Proof.
  intros Hx.
  assert (Hgen : forall ukey,
            tool.payload E w seqNum InternalKeyKindIngestSST ukey value
            = fmt.d (fst (binary.Uvarint ukey))).
  { intros ukey. unfold tool.payload, FileNum_String.
    destruct (binary.Uvarint ukey). reflexivity. }
  split; [exact Hgen|].
  assert (Hx' : tool.payload E w seqNum InternalKeyKindIngestSST
                  (binary.PutUvarint x ++ rest) value = fmt.d x).
  { rewrite Hgen, Uvarint_PutUvarint by exact Hx. reflexivity. }
  split; [exact Hx'|].
  unfold tool.dumpEntry. cbn [tool.written]. rewrite Hx'.
  cbn [kindString]. reflexivity.
Qed.

Lemma C6_ingest_sst_payload_witness :
  0 <= 42 < 2 ^ 64
  /\ tool.written tool.Stdout
       (tool.dumpEntry demo.engine tool.newWAL 7 InternalKeyKindIngestSST
          ["*"%byte] [])
     = "    IngestSST(42)" +++ nl.
Proof.
  split; [lia|].
  exact (proj2 (proj2 (C6_ingest_sst_payload demo.engine tool.newWAL 7 42 [] []
                         ltac:(lia)))).
Defined.

(** C7. The payload printed for a RangeDelete entry is the start key under
    the key formatter, a comma, and the end key, which is the value field
    of the entry, under the key formatter as well; with the quoted key
    formatter the keys [a] and [z] print [RangeDelete("a","z")]. *)
Theorem C7_range_delete_payload (E : tool.Engine) (w : tool.walT)
    (seqNum : Z) (ukey value : bytes) :
  tool.payload E w seqNum InternalKeyKindRangeDelete ukey value
  = tool.fmtKey w ukey +++ "," +++ tool.fmtKey w value
  /\ tool.written tool.Stdout
       (tool.dumpEntry E tool.newWAL seqNum InternalKeyKindRangeDelete
          ["a"%byte] ["z"%byte])
     = "    RangeDelete(" +++ dq +++ "a" +++ dq +++ "," +++ dq +++ "z" +++ dq
         +++ ")" +++ nl.
Proof.
  split; reflexivity.
Qed.

(** C8. The payload printed for a Set or a Merge entry is the formatted
    key, a comma, and the value formatter applied to the key and the value;
    with the quoted key formatter and the size-only value formatter, a Set
    of the key [k] with a value of three bytes prints [Set("k",3)]. *)
Theorem C8_set_merge_payload (E : tool.Engine) (w : tool.walT)
    (seqNum : Z) (ukey value : bytes) (b1 b2 b3 : byte) :
  tool.payload E w seqNum InternalKeyKindSet ukey value
  = tool.fmtKey w ukey +++ "," +++ tool.fmtValue w ukey value
  /\ tool.payload E w seqNum InternalKeyKindMerge ukey value
     = tool.fmtKey w ukey +++ "," +++ tool.fmtValue w ukey value
  /\ tool.written tool.Stdout
       (tool.dumpEntry E tool.newWAL seqNum InternalKeyKindSet
          ["k"%byte] [b1; b2; b3])
     = "    Set(" +++ dq +++ "k" +++ dq +++ ",3)" +++ nl.
Proof.
  repeat split.
Qed.

(** C9. A path whose name the engine's naming convention does not parse is
    dumped all the same: the reader is built with the file number 0 and the
    records of the file are decoded. *)
Theorem C9_unparsed_name_falls_back_to_zero (E : tool.Engine) (w : tool.walT)
    (arg : string) :
  tool.ParseFilename E arg = None ->
  tool.dumpFile E w arg
  = match tool.FS_Open E arg with
    | inr err => [ (tool.Stderr, tool.Error E err +++ nl) ]
    | inl f =>
        (tool.Stdout, arg +++ nl)
          :: tool.recordLoop E w arg (tool.NewReader E f 0)
    end.
Proof.
  intros Hparse. unfold tool.dumpFile. rewrite Hparse. reflexivity.
Qed.

Lemma C9_unparsed_name_falls_back_to_zero_witness :
  tool.ParseFilename demo.engine "wal.bin" = None
  /\ tool.dumpFile demo.engine tool.newWAL "wal.bin"
     = (tool.Stdout, "wal.bin" +++ nl)
         :: tool.recordLoop demo.engine tool.newWAL "wal.bin"
              [ (0, inl demo.batch2) ].
Proof.
  split; [reflexivity|].
  exact (C9_unparsed_name_falls_back_to_zero demo.engine tool.newWAL "wal.bin"
           eq_refl).
Defined.

(** C10. When the key of an IngestSST entry, or the value of a DeleteSized
    entry, is not a valid varint, the failure that [binary.Uvarint] reports
    is dropped: the number printed is 0, no error is printed, and the loop
    goes on with the entries after it. *)
Theorem C10_invalid_varint_prints_zero (E : tool.Engine) (w : tool.walT)
    (arg : string) (b : pebble.Batch) (r r' : pebble.BatchReader) (idx : Z)
    (kind : InternalKeyKind) (ukey value : bytes) :
  pebble.Next r = pebble.NextEntry kind ukey value r' ->
  (kind = InternalKeyKindIngestSST /\ snd (binary.Uvarint ukey) <= 0)
  \/ (kind = InternalKeyKindDeleteSized /\ snd (binary.Uvarint value) <= 0) ->
  tool.entriesFrom E w arg b r idx
  = (tool.Stdout, "    " +++ kindString kind +++ "(")
      :: (tool.Stdout,
          match kind with
          | InternalKeyKindIngestSST => "0"
          | _ => tool.fmtKey w ukey +++ ",0"
          end)
      :: (tool.Stdout, ")" +++ nl)
      :: tool.entriesFrom E w arg b r' (idx + 1).
Proof.
  intros Hnext Hbad. rewrite entriesFrom_step, Hnext.
  unfold tool.dumpEntry, tool.payload, FileNum_String.
  destruct Hbad as [[-> Hfail]|[-> Hfail]];
    apply Uvarint_failure in Hfail;
    destruct (binary.Uvarint _) as [v n]; cbn [fst] in Hfail; subst v;
    reflexivity.
Qed.

Lemma C10_invalid_varint_prints_zero_witness :
  pebble.Next [x16; x01; xff; x00; x01; "k"]%byte
  = pebble.NextEntry InternalKeyKindIngestSST [xff] [] [x00; x01; "k"]%byte
  /\ snd (binary.Uvarint [xff]) <= 0
  /\ tool.entriesFrom demo.engine tool.newWAL "000001.log"
       {| pebble.data := demo.batch1; pebble.count := 8 |}
       [x16; x01; xff; x00; x01; "k"]%byte 5
     = (tool.Stdout, "    IngestSST(")
         :: (tool.Stdout, "0")
         :: (tool.Stdout, ")" +++ nl)
         :: tool.entriesFrom demo.engine tool.newWAL "000001.log"
              {| pebble.data := demo.batch1; pebble.count := 8 |}
              [x00; x01; "k"]%byte 6.
Proof.
  split; [reflexivity|]. split; [vm_compute; discriminate|].
  apply (C10_invalid_varint_prints_zero demo.engine tool.newWAL "000001.log"
           {| pebble.data := demo.batch1; pebble.count := 8 |}
           [x16; x01; xff; x00; x01; "k"]%byte [x00; x01; "k"]%byte 5
           InternalKeyKindIngestSST [xff] []).
  - reflexivity.
  - left. split; [reflexivity | vm_compute; discriminate].
Defined.

(** * Further properties of [runDump] *)






Lemma payload_seqNum_irrelevant (E : tool.Engine) (w : tool.walT)
    (s1 s2 : Z) (kind : InternalKeyKind) (ukey value : bytes) :
  tool.isRangeKey kind = false ->
  tool.payload E w s1 kind ukey value = tool.payload E w s2 kind ukey value.
Proof.
  destruct kind; intros H; try discriminate; reflexivity.
Qed.

(** X1. When [SetRepr] rejects the payload of a record, the corrupt-batch
    message with the quoted path is the last thing written for the file:
    the records before it stay in the output and no step of the reader
    after it is taken. *)
Theorem X1_header_violation_ends_file (E : tool.Engine) (w : tool.walT)
    (arg : string) (f : tool.File E) (pre rest : record.Reader)
    (offset : Z) (buf : bytes) (err : error) :
  tool.FS_Open E arg = inl f ->
  tool.NewReader E f
    match tool.ParseFilename E arg with Some n => n | None => 0 end
  = pre ++ (offset, inl buf) :: rest ->
  forallb tool.accepted pre = true ->
  pebble.SetRepr buf = inr err ->
  tool.dumpFile E w arg
  = (tool.Stdout, arg +++ nl)
      :: flat_map (tool.recordOutput E w arg) pre
      ++ [ (tool.Stdout,
            "corrupt batch within log file " +++ fmt.qs arg +++ ": "
              +++ tool.Error E err) ].
Proof.
  intros Hopen Hrr Hacc Hset. unfold tool.dumpFile. rewrite Hopen, Hrr.
  rewrite recordLoop_accepted by exact Hacc.
  rewrite header_violation_ends_file with (err := err) by exact Hset.
  reflexivity.
Qed.

Lemma X1_header_violation_ends_file_witness :
  pebble.SetRepr [x01; x02]%byte = inr (ErrInvalidBatch ShortHeader)
  /\ tool.dumpFile demo.engine tool.newWAL "short.log"
     = (tool.Stdout, "short.log" +++ nl)
         :: flat_map (tool.recordOutput demo.engine tool.newWAL "short.log")
              [ (0, inl demo.batch2) ]
         ++ [ (tool.Stdout,
               "corrupt batch within log file " +++ dq +++ "short.log" +++ dq
                 +++ ": pebble: invalid batch") ].
Proof.
  split; [reflexivity|].
  apply (X1_header_violation_ends_file demo.engine tool.newWAL "short.log"
           (fun _ => [ (0, inl demo.batch2); (21, inl [x01; x02]%byte);
                       (30, inl demo.batch2) ])
           [ (0, inl demo.batch2) ] [ (30, inl demo.batch2) ] 21
           [x01; x02]%byte (ErrInvalidBatch ShortHeader)).
  - reflexivity.
  - reflexivity.
  - vm_compute. reflexivity.
  - reflexivity.
Defined.

(** X2. When the decoding of the entries of a record ends on a violation,
    the entries decoded before it are printed, then the corrupt-batch
    message, and the record loop goes on with the next step of the reader:
    only the entry loop is left. *)
Theorem X2_entry_violation_leaves_entry_loop_only (E : tool.Engine)
    (w : tool.walT) (arg : string) (offset : Z) (buf : bytes)
    (rr : record.Reader) (b : pebble.Batch) (es : list pebble.Entry)
    (err : error) :
  pebble.SetRepr buf = inl b ->
  pebble.entriesOf (pebble.Reader b) = (es, Some err) ->
  exists lines : list tool.output,
    List.length lines = List.length es
    /\ (forall i e, nth_error es i = Some e ->
          nth_error lines i
          = Some (tool.dumpEntry E w (wrap64 (pebble.SeqNum b + Z.of_nat i))
                    (pebble.ekind e) (pebble.ekey e) (pebble.evalue e)))
    /\ tool.recordLoop E w arg ((offset, inl buf) :: rr)
       = tool.summary offset b :: List.concat lines
           ++ (tool.Stdout,
               "corrupt batch within log file " +++ fmt.qs arg +++ ": "
                 +++ tool.Error E err)
           :: tool.recordLoop E w arg rr.
Proof.
  intros Hset Hdec. cbn [tool.recordLoop]. rewrite Hset.
  destruct (entriesFrom_decoded E w arg b es (pebble.Reader b) 0 (Some err) Hdec)
    as (lines & Hout & Hlen & Hnth).
  exists lines. split; [exact Hlen|]. split; [exact Hnth|].
  unfold tool.dumpEntries. rewrite Hout, <- List.app_assoc. reflexivity.
Qed.

Lemma X2_entry_violation_leaves_entry_loop_only_witness :
  pebble.SetRepr demo.truncated
  = inl {| pebble.data := demo.truncated; pebble.count := 2 |}
  /\ exists lines : list tool.output,
       List.length lines = 1%nat
       /\ tool.recordLoop demo.engine tool.newWAL "000002.log"
            [ (0, inl demo.truncated); (31, inl demo.batch2) ]
          = tool.summary 0 {| pebble.data := demo.truncated; pebble.count := 2 |}
              :: List.concat lines
              ++ (tool.Stdout,
                  "corrupt batch within log file " +++ dq +++ "000002.log"
                    +++ dq +++ ": pebble: invalid batch: decoding value")
              :: tool.recordLoop demo.engine tool.newWAL "000002.log"
                   [ (31, inl demo.batch2) ].
Proof.
  split; [reflexivity|].
  destruct (X2_entry_violation_leaves_entry_loop_only demo.engine tool.newWAL
              "000002.log" 0 demo.truncated [ (31, inl demo.batch2) ]
              {| pebble.data := demo.truncated; pebble.count := 2 |}
              [ pebble.mkEntry InternalKeyKindSet ["k"%byte] ["a"; "b"; "c"]%byte ]
              (ErrInvalidBatch TruncatedValue) eq_refl
              ltac:(vm_compute; reflexivity))
    as (lines & Hlen & _ & Hout).
  exists lines. split; [exact Hlen | exact Hout].
Defined.



(** X5. The size printed for a DeleteSized entry is the unsigned integer
    whose varint encoding starts the value field, after the formatted key
    and a comma; the bytes that follow the varint are ignored. *)
Theorem X5_delete_sized_payload (E : tool.Engine) (w : tool.walT)
    (seqNum x : Z) (ukey rest : bytes) :
  0 <= x < 2 ^ 64 ->
  tool.payload E w seqNum InternalKeyKindDeleteSized ukey
    (binary.PutUvarint x ++ rest)
  = tool.fmtKey w ukey +++ "," +++ fmt.d x.
Proof.
  intros Hx. unfold tool.payload.
  rewrite Uvarint_PutUvarint by exact Hx. reflexivity.
Qed.

Lemma X5_delete_sized_payload_witness :
  0 <= 300 < 2 ^ 64
  /\ tool.payload demo.engine tool.newWAL 7 InternalKeyKindDeleteSized
       ["k"%byte] [xac; x02; xff]%byte
     = dq +++ "k" +++ dq +++ ",300".
Proof.
  split; [lia|].
  exact (X5_delete_sized_payload demo.engine tool.newWAL 7 300 ["k"%byte] [xff]
           ltac:(lia)).
Defined.

(** X6. The value formatter is consulted for Set and Merge entries only:
    for every other kind two configurations with the same key formatter
    print the same entry. *)
Theorem X6_value_formatter_for_set_and_merge_only (E : tool.Engine)
    (w1 w2 : tool.walT) (seqNum : Z) (kind : InternalKeyKind)
    (ukey value : bytes) :
  tool.fmtKey w1 = tool.fmtKey w2 ->
  kind <> InternalKeyKindSet ->
  kind <> InternalKeyKindMerge ->
  tool.dumpEntry E w1 seqNum kind ukey value
  = tool.dumpEntry E w2 seqNum kind ukey value.
Proof.
  intros Hk Hset Hmerge. unfold tool.dumpEntry, tool.payload.
  rewrite Hk. destruct kind; try reflexivity; congruence.
Qed.

Lemma X6_value_formatter_for_set_and_merge_only_witness :
  tool.dumpEntry demo.engine tool.newWAL 7 InternalKeyKindRangeDelete
    ["a"%byte] ["z"%byte]
  = tool.dumpEntry demo.engine
      {| tool.fmtKey := tool.formatKeyQuoted;
         tool.fmtValue := fun _ v => fmt.q v;
         tool.verbose := true |}
      7 InternalKeyKindRangeDelete ["a"%byte] ["z"%byte].
Proof.
  apply (X6_value_formatter_for_set_and_merge_only demo.engine tool.newWAL
           {| tool.fmtKey := tool.formatKeyQuoted;
              tool.fmtValue := fun _ v => fmt.q v;
              tool.verbose := true |}
           7 InternalKeyKindRangeDelete ["a"%byte] ["z"%byte]).
  - reflexivity.
  - discriminate.
  - discriminate.
Defined.

Lemma entriesFrom_seq_irrelevant (E : tool.Engine) (w : tool.walT)
    (arg : string) (b1 b2 : pebble.Batch) (es : list pebble.Entry) :
  forall r i1 i2,
    fst (pebble.entriesOf r) = es ->
    forallb (fun e => negb (tool.isRangeKey (pebble.ekind e))) es = true ->
    tool.entriesFrom E w arg b1 r i1 = tool.entriesFrom E w arg b2 r i2.
Proof.
  induction es as [|e es IH]; intros r i1 i2 Hdec Hkinds;
    rewrite entriesOf_step in Hdec; rewrite !entriesFrom_step;
    destruct (pebble.Next r) as [k u v r'| |err]; try reflexivity;
    cbn [fst] in Hdec; try discriminate.
  injection Hdec as <- Hes. cbn [forallb pebble.ekind] in Hkinds.
  apply andb_prop in Hkinds as [Hk Hrest]. apply negb_true_iff in Hk.
  unfold tool.dumpEntry.
  rewrite (payload_seqNum_irrelevant E w _ (wrap64 (pebble.SeqNum b2 + i2)))
    by exact Hk.
  cbn [List.app]. do 3 f_equal.
  apply IH; assumption.
Qed.

(** X7. The sequence number of the batch header reaches the entry lines
    through the range-key entries only: two batches with the same entry
    bytes, none of them a range-key entry, print the same entry lines
    whatever their sequence numbers. *)
Theorem X7_sequence_number_for_range_keys_only (E : tool.Engine)
    (w : tool.walT) (arg : string) (b1 b2 : pebble.Batch) :
  pebble.Reader b1 = pebble.Reader b2 ->
  forallb (fun e => negb (tool.isRangeKey (pebble.ekind e)))
    (fst (pebble.entriesOf (pebble.Reader b1))) = true ->
  tool.dumpEntries E w arg b1 = tool.dumpEntries E w arg b2.
Proof.
  intros Hr Hkinds. unfold tool.dumpEntries. rewrite <- Hr.
  apply entriesFrom_seq_irrelevant
    with (es := fst (pebble.entriesOf (pebble.Reader b1)));
    [reflexivity | exact Hkinds].
Qed.

Lemma X7_sequence_number_for_range_keys_only_witness :
  pebble.SeqNum {| pebble.data := demo.batch2; pebble.count := 1 |} = 20
  /\ pebble.SeqNum
       {| pebble.data :=
            pebble.encodeBatch 99
              [pebble.mkEntry InternalKeyKindMerge ["m"%byte] ["v"%byte]];
          pebble.count := 1 |} = 99
  /\ tool.dumpEntries demo.engine tool.newWAL "wal.bin"
       {| pebble.data := demo.batch2; pebble.count := 1 |}
     = tool.dumpEntries demo.engine tool.newWAL "wal.bin"
         {| pebble.data :=
              pebble.encodeBatch 99
                [pebble.mkEntry InternalKeyKindMerge ["m"%byte] ["v"%byte]];
            pebble.count := 1 |}.
Proof.
  split; [reflexivity|]. split; [reflexivity|].
  apply (X7_sequence_number_for_range_keys_only demo.engine tool.newWAL "wal.bin"
           {| pebble.data := demo.batch2; pebble.count := 1 |}
           {| pebble.data :=
                pebble.encodeBatch 99
                  [pebble.mkEntry InternalKeyKindMerge ["m"%byte] ["v"%byte]];
              pebble.count := 1 |}).
  - reflexivity.
  - vm_compute. reflexivity.
Defined.

(** X8. The dump of a file depends on the steps of its reader up to the
    first one that is a failure or a record with a rejected header, and on
    nothing after it. *)
Theorem X8_nothing_read_after_the_stop (E : tool.Engine) (w : tool.walT)
    (arg : string) (pre rest1 rest2 : record.Reader) (st : record.Step) :
  tool.accepted st = false ->
  tool.recordLoop E w arg (pre ++ st :: rest1)
  = tool.recordLoop E w arg (pre ++ st :: rest2).
Proof.
  intros Hst. induction pre as [|[offset [buf|err]] pre IH];
    cbn [List.app tool.recordLoop].
  - destruct st as [offset [buf|err]]; cbn [tool.accepted] in Hst;
      cbn [tool.recordLoop]; [|reflexivity].
    destruct (pebble.SetRepr buf); [discriminate|reflexivity].
  - destruct (pebble.SetRepr buf); [|reflexivity]. rewrite IH. reflexivity.
  - reflexivity.
Qed.

Lemma X8_nothing_read_after_the_stop_witness :
  tool.accepted (57, inr ErrZeroedChunk) = false
  /\ tool.recordLoop demo.engine tool.newWAL "000001.log"
       ([ (0, inl demo.batch1) ] ++ (57, inr ErrZeroedChunk)
          :: [ (64, inl demo.batch2) ])
     = tool.recordLoop demo.engine tool.newWAL "000001.log"
         ([ (0, inl demo.batch1) ] ++ (57, inr ErrZeroedChunk) :: []).
Proof.
  split; [reflexivity|].
  exact (X8_nothing_read_after_the_stop demo.engine tool.newWAL "000001.log"
           [ (0, inl demo.batch1) ] [ (64, inl demo.batch2) ] []
           (57, inr ErrZeroedChunk) eq_refl).
Defined.

Lemma lor_below_pow2 (a b n : Z) :
  0 < n -> 0 <= a < 2 ^ n -> 0 <= b < 2 ^ n -> 0 <= Z.lor a b < 2 ^ n.
Proof.
  intros Hn Ha Hb.
  assert (Hnn : 0 <= Z.lor a b) by (apply Z.lor_nonneg; lia).
  split; [exact Hnn|].
  destruct (Z.eq_dec (Z.lor a b) 0) as [H0|H0].
  - rewrite H0. apply Z.pow_pos_nonneg; lia.
  - apply Z.log2_lt_pow2; [lia|].
    rewrite Z.log2_lor by lia.
    apply Z.max_lub_lt.
    + destruct (Z.eq_dec a 0) as [->|Hz]; [simpl; lia|].
      apply Z.log2_lt_pow2; lia.
    + destruct (Z.eq_dec b 0) as [->|Hz]; [simpl; lia|].
      apply Z.log2_lt_pow2; lia.
Qed.

Lemma wrap64_range (x : Z) : 0 <= wrap64 x < 2 ^ 64.
Proof.
  unfold wrap64. apply Z.mod_pos_bound. lia.
Qed.

Lemma uvarintLoop_range (buf : bytes) :
  forall x s i, 0 <= x < 2 ^ 64 ->
    0 <= fst (binary.uvarintLoop buf x s i) < 2 ^ 64.
Proof.
  induction buf as [|b rest IH]; intros x s i Hx; cbn [binary.uvarintLoop].
  - simpl. lia.
  - destruct (i =? binary.MaxVarintLen64); [simpl; lia|].
    destruct (byteZ b <? 128).
    + destruct ((i =? _) && (1 <? byteZ b)); cbn [fst]; [lia|].
      apply lor_below_pow2; [lia | exact Hx | apply wrap64_range].
    + apply IH. apply lor_below_pow2; [lia | exact Hx | apply wrap64_range].
Qed.

(** X9. The number printed for an IngestSST entry and the size printed for
    a DeleteSized entry are unsigned 64-bit values, whatever bytes the key
    and the value hold. *)
Theorem X9_printed_varints_are_uint64 (E : tool.Engine) (w : tool.walT)
    (seqNum : Z) (ukey value : bytes) :
  (exists n, 0 <= n < 2 ^ 64
     /\ tool.payload E w seqNum InternalKeyKindIngestSST ukey value = fmt.d n)
  /\ (exists n, 0 <= n < 2 ^ 64
        /\ tool.payload E w seqNum InternalKeyKindDeleteSized ukey value
           = tool.fmtKey w ukey +++ "," +++ fmt.d n).
Proof.
  split; unfold tool.payload, FileNum_String.
  - pose proof (uvarintLoop_range ukey 0 0 0 ltac:(lia)) as Hr.
    fold (binary.Uvarint ukey) in Hr.
    destruct (binary.Uvarint ukey) as [n k]. exists n. split; [exact Hr|reflexivity].
  - pose proof (uvarintLoop_range value 0 0 0 ltac:(lia)) as Hr.
    fold (binary.Uvarint value) in Hr.
    destruct (binary.Uvarint value) as [n k]. exists n. split; [exact Hr|reflexivity].
Qed.
